(** * The Google Cloud SQL dialect [mysql+gaerdbms]

    A shallow embedding of [lib/sqlalchemy/dialects/mysql/gaerdbms.py]:
    the environment detector, the driver selector, the pooling override,
    the connection-argument translator, the converter table with its
    decode function [Str2Unicode], and the error-code extractor.

    Python state that the module reads (the process environment, the
    service-stub registry) is passed explicitly; code that can raise
    returns in the [result] monad. *)

From Stdlib Require Import ZArith NArith List Lia.
From Stdlib.Strings Require Import Ascii String Byte.
From stdpp Require Import base option gmap strings list fin_maps.
From Stdlib Require DecimalString DecimalN DecimalPos.

Local Open Scope string_scope.

(** ** A small Python runtime *)

Module Py.

(** The exceptions that the modelled code can meet. *)
Inductive exn : Type :=
| KeyError (key : string)
| UnicodeDecodeError (codec : string)
| UnicodeEncodeError (codec : string)
| LookupError (encoding : string)
| ValueError.

(** Outcome of running a Python expression or call. *)
Inductive result (A : Type) : Type :=
| Return (a : A)
| Raise (e : exn).
Arguments Return {A} a.
Arguments Raise {A} e.

#[export] Instance result_ret : MRet result := @Return.
#[export] Instance result_bind : MBind result :=
  fun A B (k : A -> result B) (m : result A) =>
    match m with
    | Return a => k a
    | Raise e => Raise e
    end.

Definition raises {A} (m : result A) : Prop := exists e, m = Raise e.
Definition returns {A} (m : result A) : Prop := exists a, m = Return a.

(** Values stored in the keyword-argument dictionary: strings, integers
    (the port) and references to objects that live elsewhere (compared
    by identity). *)
Inductive pyobj : Type :=
| PyStr (s : string)
| PyInt (n : Z)
| PyRef (addr : positive).

(** [d.get(key, default)] *)
Definition dict_get {V} (d : gmap string V) (key : string) (default : V) : V :=
  match d !! key with
  | Some v => v
  | None => default
  end.

(** [d[key]]: a missing key raises [KeyError]. *)
Definition getitem {V} (d : gmap string V) (key : string) : result V :=
  match d !! key with
  | Some v => Return v
  | None => Raise (KeyError key)
  end.

(** [s.startswith(p)] *)
Fixpoint startswith (s p : string) {struct p} : bool :=
  match p with
  | EmptyString => true
  | String c p' =>
      match s with
      | EmptyString => false
      | String d s' => if Ascii.eqb d c then startswith s' p' else false
      end
  end.

End Py.
Import Py.

(** ** Module-level names of [gaerdbms.py] *)

(** The keys of the converter table: native types and remote type codes.
    The codes are constants of the vendor's [jdbc_type] module and are
    kept symbolic. *)
Inductive native_type : Type :=
| IntType | LongType | FloatType | TupleType | BooleanType | StringType
| UnicodeType | datetime_date | datetime_datetime | datetime_time
| converters_Blob.

Inductive jdbc_type : Type :=
| BIT | SMALLINT | INTEGER | BIGINT | TINYINT | REAL | DOUBLE | NUMERIC
| DECIMAL | FLOAT | CHAR | VARCHAR | LONGVARCHAR | DATE | TIME | TIMESTAMP
| BINARY | VARBINARY | LONGVARBINARY | BLOB | CLOB | NCLOB | NCHAR
| NVARCHAR | LONGNVARCHAR | ARRAY | NULL | OTHER | JAVA_OBJECT | DISTINCT
| STRUCT | REF | DATALINK | BOOLEAN | ROWID | SQLXML.

Inductive converter_key : Type :=
| Native (t : native_type)
| Jdbc (c : jdbc_type).

(** The callables stored in the table, by name. *)
Inductive converter : Type :=
| Any2Str | Tuple2Str | Bool2Str | Unicode2Str | Date2Str | Datetime2Str
| Time2Str | py_int | py_float | Str2Unicode_fn | Str2Date | Str2Time
| Str2Datetime | Blob.

Definition CONVERTERS : list (converter_key * converter) :=
  [ (Native IntType, Any2Str);
    (Native LongType, Any2Str);
    (Native FloatType, Any2Str);
    (Native TupleType, Tuple2Str);
    (Native BooleanType, Bool2Str);
    (Native StringType, Any2Str);
    (Native UnicodeType, Unicode2Str);
    (Native datetime_date, Date2Str);
    (Native datetime_datetime, Datetime2Str);
    (Native datetime_time, Time2Str);
    (Native converters_Blob, Any2Str);

    (Jdbc BIT, py_int);
    (Jdbc SMALLINT, py_int);
    (Jdbc INTEGER, py_int);
    (Jdbc BIGINT, py_int);
    (Jdbc TINYINT, py_int);
    (Jdbc REAL, py_float);
    (Jdbc DOUBLE, py_float);
    (Jdbc NUMERIC, py_float);
    (Jdbc DECIMAL, py_float);
    (Jdbc FLOAT, py_float);
    (Jdbc CHAR, Str2Unicode_fn);
    (Jdbc VARCHAR, Str2Unicode_fn);
    (Jdbc LONGVARCHAR, Str2Unicode_fn);
    (Jdbc DATE, Str2Date);
    (Jdbc TIME, Str2Time);
    (Jdbc TIMESTAMP, Str2Datetime);
    (Jdbc BINARY, Blob);
    (Jdbc VARBINARY, Blob);
    (Jdbc LONGVARBINARY, Blob);
    (Jdbc BLOB, Blob);
    (Jdbc CLOB, Str2Unicode_fn);
    (Jdbc NCLOB, Str2Unicode_fn);
    (Jdbc NCHAR, Str2Unicode_fn);
    (Jdbc NVARCHAR, Str2Unicode_fn);
    (Jdbc LONGNVARCHAR, Str2Unicode_fn);

    (Jdbc ARRAY, Str2Unicode_fn);
    (Jdbc NULL, Str2Unicode_fn);
    (Jdbc OTHER, Str2Unicode_fn);
    (Jdbc JAVA_OBJECT, Str2Unicode_fn);
    (Jdbc DISTINCT, Str2Unicode_fn);
    (Jdbc STRUCT, Str2Unicode_fn);
    (Jdbc REF, Str2Unicode_fn);
    (Jdbc DATALINK, Str2Unicode_fn);
    (Jdbc BOOLEAN, Str2Unicode_fn);
    (Jdbc ROWID, Str2Unicode_fn);
    (Jdbc SQLXML, Str2Unicode_fn) ].

(** The table is one object, built when the module is loaded; [conv]
    entries refer to it by address. *)
Definition CONVERTERS_addr : positive := 1%positive.

Definition module_objects : gmap positive (list (converter_key * converter)) :=
  {[ CONVERTERS_addr := CONVERTERS ]}.

(** [os.environ] *)
Abbreviation environ := (gmap string string).

Definition _is_dev_environment (os_environ : environ) : bool :=
  startswith (dict_get os_environ "SERVER_SOFTWARE" "") "Development/".

(** ** class MySQLDialect_gaerdbms *)

Definition supports_sane_rowcount : bool := false.
Definition supports_sane_multi_rowcount : bool := false.

(** The three client modules [dbapi] chooses from. *)
Inductive dbapi_module : Type :=
| rdbms_mysqldb
| rdbms_apiproxy
| rdbms_googleapi.

(** [apiproxy_stub_map.apiproxy]: the registered stubs, by service name.
    [GetStub] answers the stub or [None]; a stub object is truthy. *)
Inductive stub : Type := Stub (id : positive).

Definition GetStub (apiproxy : gmap string stub) (service : string) : option stub :=
  apiproxy !! service.

Definition truthy_stub (s : option stub) : bool :=
  match s with
  | Some _ => true
  | None => false
  end.

Definition dbapi (os_environ : environ) (apiproxy : gmap string stub) : dbapi_module :=
  if _is_dev_environment os_environ then rdbms_mysqldb
  else if truthy_stub (GetStub apiproxy "rdbms") then rdbms_apiproxy
  else rdbms_googleapi.

(** What the dialect observes of a parsed URL object: the dictionary its
    [translate_connect_args()] method answers (the method belongs to the
    engine's URL class and is taken as given), and its [query] dictionary. *)
Record URL : Type := {
  translate_connect_args : gmap string pyobj;
  query : gmap string string
}.

Inductive pool_class : Type :=
| QueuePool | SingletonThreadPool | StaticPool | AssertionPool | NullPool.

Definition get_pool_class (url : URL) : pool_class := NullPool.

Definition create_connect_args (os_environ : environ) (url : URL)
  : result (list pyobj * gmap string pyobj) :=
  let opts := translate_connect_args url in
  if negb (_is_dev_environment os_environ) then
    let opts := <["dsn" := PyStr ""]> opts in
    instance ← getitem (query url) "instance";
    let opts := <["instance" := PyStr instance]> opts in
    let opts := <["conv" := PyRef CONVERTERS_addr]> opts in
    Return ([], opts)
  else
    Return ([], opts).

(** ** Byte strings, unicode strings and the two codecs

    A Python 2 [str] given to a converter is a sequence of bytes; a
    [unicode] object is a sequence of code points. *)

Module Codecs.

Local Open Scope N_scope.

Abbreviation bytes := (list byte).
Abbreviation unicode_string := (list N).

Definition is_continuation (b : byte) : bool :=
  N.eqb (N.land (Byte.to_N b) 0xC0) 0x80.

(** Payload bits of a continuation byte. *)
Definition low6 (b : byte) : N := N.land (Byte.to_N b) 0x3F.

(** Length of the sequence a lead byte announces; 0 for a byte that
    cannot start one (continuation bytes, 0xC0, 0xC1, 0xF5 and up). *)
Definition utf8_code_length (c : N) : nat :=
  if c <? 0x80 then 1%nat
  else if c <? 0xC2 then 0%nat
  else if c <? 0xE0 then 2%nat
  else if c <? 0xF0 then 3%nat
  else if c <? 0xF5 then 4%nat
  else 0%nat.

(** The strict UTF-8 decoder of the Python 2 runtime: shortest forms
    only, nothing above U+10FFFF. *)
Fixpoint decode_utf8 (s : bytes) : result unicode_string :=
  match s with
  | [] => Return []
  | b0 :: s1 =>
      let c0 := Byte.to_N b0 in
      match utf8_code_length c0 with
      | 1%nat => u ← decode_utf8 s1; Return (c0 :: u)
      | 2%nat =>
          match s1 with
          | b1 :: s2 =>
              if is_continuation b1 then
                u ← decode_utf8 s2;
                Return (N.shiftl (N.land c0 0x1F) 6 + low6 b1 :: u)
              else Raise (UnicodeDecodeError "utf8")
          | _ => Raise (UnicodeDecodeError "utf8")
          end
      | 3%nat =>
          match s1 with
          | b1 :: b2 :: s3 =>
              if is_continuation b1 && is_continuation b2
                 && negb ((c0 =? 0xE0) && (Byte.to_N b1 <? 0xA0)) then
                u ← decode_utf8 s3;
                Return (N.shiftl (N.land c0 0x0F) 12
                        + N.shiftl (low6 b1) 6 + low6 b2 :: u)
              else Raise (UnicodeDecodeError "utf8")
          | _ => Raise (UnicodeDecodeError "utf8")
          end
      | 4%nat =>
          match s1 with
          | b1 :: b2 :: b3 :: s4 =>
              if is_continuation b1 && is_continuation b2 && is_continuation b3
                 && negb ((c0 =? 0xF0) && (Byte.to_N b1 <? 0x90))
                 && negb ((c0 =? 0xF4) && (0x8F <? Byte.to_N b1)) then
                u ← decode_utf8 s4;
                Return (N.shiftl (N.land c0 0x07) 18
                        + N.shiftl (low6 b1) 12
                        + N.shiftl (low6 b2) 6 + low6 b3 :: u)
              else Raise (UnicodeDecodeError "utf8")
          | _ => Raise (UnicodeDecodeError "utf8")
          end
      | _ => Raise (UnicodeDecodeError "utf8")
      end
  end.

(** Latin-1: every byte is the code point of the same number. *)
Definition decode_latin1 (s : bytes) : result unicode_string :=
  Return (map Byte.to_N s).

(** The builtin [unicode(arg, encoding)] with strict error handling,
    for the two encodings the module names. *)
Definition unicode (arg : bytes) (encoding : string) : result unicode_string :=
  if String.eqb encoding "utf-8" then decode_utf8 arg
  else if String.eqb encoding "latin-1" then decode_latin1 arg
  else Raise (LookupError encoding).

End Codecs.
Import Codecs.

(** What [Str2Unicode] can answer: a [unicode] object, or the [str]
    literal of its last branch. *)
Inductive text : Type :=
| Unicode (u : unicode_string)
| Str (s : string).

(** [try: body except UnicodeDecodeError: handler] *)
Definition try_except_UnicodeDecodeError {A} (body handler : result A) : result A :=
  match body with
  | Raise (UnicodeDecodeError _) => handler
  | _ => body
  end.

Section Str2Unicode.

(** The builtin the function calls. *)
Variable unicode_builtin : bytes -> string -> result unicode_string.

Definition Str2Unicode_with (arg : bytes) : result text :=
  try_except_UnicodeDecodeError
    (u ← unicode_builtin arg "utf-8"; Return (Unicode u))
    (try_except_UnicodeDecodeError
       (u ← unicode_builtin arg "latin-1"; Return (Unicode u))
       (Return (Str "[ERROR]"))).

End Str2Unicode.

Definition Str2Unicode (arg : bytes) : result text :=
  Str2Unicode_with unicode arg.

(** ** Regular expressions: the fragment of [re] that the module uses

    A backtracking matcher in continuation-passing style, with the
    priorities of Python's engine: the left alternative first, greedy
    [+] and [?], capture groups set along the successful path only. *)

Module Re.

Inductive atom : Type :=
| Lit (c : ascii)            (* one literal character *)
| Digit.                     (* \d on a byte string: 0-9 *)

Inductive regex : Type :=
| Bol                        (* ^ *)
| Atom (a : atom)
| Plus (a : atom)            (* a+ *)
| Opt (r : regex)            (* r? *)
| Seq (r1 r2 : regex)
| Alt (r1 r2 : regex)        (* r1|r2 *)
| Group (n : nat) (r : regex).

Definition is_digit (c : ascii) : bool :=
  let n := N_of_ascii c in ((48 <=? n) && (n <=? 57))%N.

Definition test (a : atom) (c : ascii) : bool :=
  match a with
  | Lit d => Ascii.eqb c d
  | Digit => is_digit c
  end.

(** A match object: the text of each group that took part. *)
Abbreviation match_object := (gmap nat (list ascii)).

Section matcher.
Context {R : Type}.

(** [a+] from position [pos]: as many characters as possible,
    giving them back one at a time while the continuation fails. *)
Fixpoint plus_atom (a : atom) (s : list ascii) (pos : nat)
         (k : nat -> list ascii -> option R) : option R :=
  match s with
  | c :: s' =>
      if test a c then
        match plus_atom a s' (S pos) k with
        | Some m => Some m
        | None => k (S pos) s'
        end
      else None
  | [] => None
  end.
End matcher.

Fixpoint run (r : regex) (pos : nat) (s : list ascii) (groups : match_object)
         (k : nat -> list ascii -> match_object -> option match_object)
  : option match_object :=
  match r with
  | Bol => if Nat.eqb pos 0 then k pos s groups else None
  | Atom a =>
      match s with
      | c :: s' => if test a c then k (S pos) s' groups else None
      | [] => None
      end
  | Plus a => plus_atom a s pos (fun pos' s' => k pos' s' groups)
  | Opt r1 =>
      match run r1 pos s groups k with
      | Some m => Some m
      | None => k pos s groups
      end
  | Seq r1 r2 =>
      run r1 pos s groups (fun pos' s' groups' => run r2 pos' s' groups' k)
  | Alt r1 r2 =>
      match run r1 pos s groups k with
      | Some m => Some m
      | None => run r2 pos s groups k
      end
  | Group n r1 =>
      run r1 pos s groups
          (fun pos' s' groups' => k pos' s' (<[n := take (pos' - pos) s]> groups'))
  end.

(** [pattern.match(string)]: a match that starts at position 0. *)
Definition match_ (pattern : regex) (subject : list ascii) : option match_object :=
  run pattern 0 subject ∅ (fun _ _ groups => Some groups).

(** [m.group(n)]: [None] for a group that did not take part. *)
Definition group (m : match_object) (n : nat) : option (list ascii) := m !! n.

End Re.
Import Re.

(** [a or b] on values that are [None] or a string. *)
Definition truthy (v : option (list ascii)) : bool :=
  match v with
  | Some (_ :: _) => true
  | _ => false
  end.

Definition py_or (a b : option (list ascii)) : option (list ascii) :=
  if truthy a then a else b.

(** Value of a string of decimal digits. *)
Definition digit_value (c : ascii) : Z := Z.of_N (N_of_ascii c) - 48.

Definition decimal (ds : list ascii) : Z :=
  fold_left (fun acc c => 10 * acc + digit_value c)%Z ds 0%Z.

(** [int(s)] for a byte string: the literals accepted here are the plain
    runs of digits; anything else is answered with [ValueError]. *)
Definition int (s : list ascii) : result Z :=
  match s with
  | [] => Raise ValueError
  | _ => if forallb is_digit s then Return (decimal s) else Raise ValueError
  end.

(** The compiled pattern: ^(\d+)L?:|^\((\d+)L?, *)
Definition error_code_pattern : regex :=
  Alt (Seq Bol (Seq (Group 1 (Plus Digit))
                    (Seq (Opt (Atom (Lit "L"))) (Atom (Lit ":")))))
      (Seq Bol (Seq (Atom (Lit "("))
                    (Seq (Group 2 (Plus Digit))
                         (Seq (Opt (Atom (Lit "L"))) (Atom (Lit ",")))))).

(** The exception is given by its string form, [str(exception)]. *)
Definition _extract_error_code (exception : string) : result (option Z) :=
  let m := match_ error_code_pattern (list_ascii_of_string exception) in
  let code :=
    match m with
    | Some m => py_or (group m 1) (group m 2)
    | None => None
    end in
  if truthy code then
    match code with
    | Some digits => n ← int digits; Return (Some n)
    | None => Return None
    end
  else Return None.





(** * Vocabulary of the statements and of their proofs *)

(** The keys that the production branch assigns. *)
Definition assigned_keys : list string := ["dsn"; "instance"; "conv"].

Definition production_environ : environ :=
  {[ "SERVER_SOFTWARE" := "Google App Engine/1.9.0" ]}.

Definition development_environ : environ :=
  {[ "SERVER_SOFTWARE" := "Development/2.0" ]}.

(** mysql+gaerdbms:///mydb?instance=project:inst *)
Definition url_with_instance : URL :=
  {| translate_connect_args := {[ "database" := PyStr "mydb" ]};
     query := {[ "instance" := "project:inst" ]} |}.

(** mysql+gaerdbms:///mydb *)
Definition url_without_instance : URL :=
  {| translate_connect_args := {[ "database" := PyStr "mydb" ]};
     query := ∅ |}.

Local Open Scope list_scope.

(** A non-empty run of decimal digits. *)
Definition digits (ds : list ascii) : Prop :=
  ds <> [] /\ forallb is_digit ds = true.

(** The two shapes the pattern accepts, with the digits they lead with:
    "<digits>:" or "<digits>L:", and "(<digits>," or "(<digits>L,". *)
Definition colon_form (s ds : list ascii) : Prop :=
  exists rest, s = ds ++ ":"%char :: rest \/ s = ds ++ "L"%char :: ":"%char :: rest.

Definition paren_form (s ds : list ascii) : Prop :=
  exists rest, s = "("%char :: ds ++ ","%char :: rest
            \/ s = "("%char :: ds ++ "L"%char :: ","%char :: rest.

Definition leading_code (s ds : list ascii) : Prop :=
  digits ds /\ (colon_form s ds \/ paren_form s ds).

(** What may follow the digits: an optional L, then the closing
    character [c] (a colon or a comma). *)
Definition tail_ok (c : ascii) (s : list ascii) : bool :=
  match s with
  | x :: s' =>
      if Ascii.eqb x "L" then
        match s' with
        | y :: _ => Ascii.eqb y c
        | [] => false
        end
      else Ascii.eqb x c
  | [] => false
  end.

(** The two alternatives of the pattern, after the anchors. *)
Definition colon_alternative (s : list ascii) : option match_object :=
  plus_atom Digit s 0
    (fun p s' => if tail_ok ":" s' then Some (<[1%nat := take (p - 0) s]> ∅) else None).

Definition paren_alternative (s1 : list ascii) : option match_object :=
  plus_atom Digit s1 1
    (fun p s' => if tail_ok "," s' then Some (<[2%nat := take (p - 1) s1]> ∅) else None).

(** ** Further vocabulary: the converter table as a dictionary *)

#[local] Instance native_type_eq_dec : EqDecision native_type.
Proof. solve_decision. Defined.
#[local] Instance jdbc_type_eq_dec : EqDecision jdbc_type.
Proof. solve_decision. Defined.
#[local] Instance converter_key_eq_dec : EqDecision converter_key.
Proof. solve_decision. Defined.

(** The dictionary that a display [{k1: v1, k2: v2, ...}] builds, as a
    lookup function: the entries are stored from left to right, so of
    two entries with equal keys the later one is kept. [None] stands for
    a missing key. *)
Fixpoint dict_display {K V : Type} `{EqDecision K} (entries : list (K * V)) (key : K)
  : option V :=
  match entries with
  | [] => None
  | (k, v) :: later =>
      match dict_display later key with
      | Some v' => Some v'
      | None => if decide (k = key) then Some v else None
      end
  end.



(** The keyword arguments of [url_with_instance] in production. *)
Definition production_opts : gmap string pyobj :=
  {[ "database" := PyStr "mydb"; "dsn" := PyStr "";
     "instance" := PyStr "project:inst"; "conv" := PyRef CONVERTERS_addr ]}.



(** ** Further vocabulary: one step of the UTF-8 decoder *)

(** The first code point of a byte string and the bytes after it, as
    [decode_utf8] reads them; [None] where it raises. *)
Definition utf8_next (s : bytes) : option (N * bytes) :=
  match s with
  | [] => None
  | b0 :: s1 =>
      let c0 := Byte.to_N b0 in
      match utf8_code_length c0 with
      | 1%nat => Some (c0, s1)
      | 2%nat =>
          match s1 with
          | b1 :: s2 =>
              if is_continuation b1 then
                Some (N.shiftl (N.land c0 0x1F) 6 + low6 b1, s2)%N
              else None
          | _ => None
          end
      | 3%nat =>
          match s1 with
          | b1 :: b2 :: s3 =>
              if is_continuation b1 && is_continuation b2
                 && negb ((c0 =? 0xE0) && (Byte.to_N b1 <? 0xA0))%N then
                Some (N.shiftl (N.land c0 0x0F) 12
                      + N.shiftl (low6 b1) 6 + low6 b2, s3)%N
              else None
          | _ => None
          end
      | 4%nat =>
          match s1 with
          | b1 :: b2 :: b3 :: s4 =>
              if is_continuation b1 && is_continuation b2 && is_continuation b3
                 && negb ((c0 =? 0xF0) && (Byte.to_N b1 <? 0x90))%N
                 && negb ((c0 =? 0xF4) && (0x8F <? Byte.to_N b1))%N then
                Some (N.shiftl (N.land c0 0x07) 18
                      + N.shiftl (low6 b1) 12
                      + N.shiftl (low6 b2) 6 + low6 b3, s4)%N
              else None
          | _ => None
          end
      | _ => None
      end
  end.

(** A byte of the 7-bit range. *)
Definition is_ascii_byte (b : byte) : bool := (Byte.to_N b <? 0x80)%N.

Definition byte_of_N (n : N) : byte :=
  match Byte.of_N n with
  | Some b => b
  | None => x00
  end.

(** The two-byte UTF-8 sequence of the code point that has the number of
    the byte [b] (for a byte outside the 7-bit range). *)
Definition utf8_two_bytes (b : byte) : bytes :=
  [ byte_of_N (N.lor 0xC0 (N.shiftr (Byte.to_N b) 6));
    byte_of_N (N.lor 0x80 (N.land (Byte.to_N b) 0x3F)) ].

(** ** Further vocabulary: integers as decimal text *)

(** The decimal text of a non-negative integer, as [str] and the [%d]
    format write it. *)
Definition str_of_N (n : N) : string :=
  DecimalString.NilEmpty.string_of_uint (N.to_uint n).

(** * Properties *)

(** ** The environment detector *)

Lemma startswith_app (p r : string) : startswith (p +:+ r) p = true.
Proof.
  induction p as [|c p IH]; simpl; [done|].
  by rewrite Ascii.eqb_refl.
Qed.

Lemma startswith_inv (s p : string) :
  startswith s p = true -> exists r, s = p +:+ r.
Proof.
  revert s; induction p as [|c p IH]; intros s H; simpl in *.
  - by exists s.
  - destruct s as [|d s]; [done|].
    destruct (Ascii.eqb d c) eqn:E; [|done].
    apply Ascii.eqb_eq in E as ->.
    destruct (IH _ H) as [r ->]. by exists r.
Qed.

(** C4: the detector answers true exactly when SERVER_SOFTWARE is set
    to a value that begins with "Development/"; for every other value,
    and when the variable is absent, it answers false. *)
Theorem is_dev_environment_spec (os_environ : environ) :
  (forall v rest, os_environ !! "SERVER_SOFTWARE" = Some v ->
                  v = "Development/" +:+ rest ->
                  _is_dev_environment os_environ = true)
  /\ (forall v, os_environ !! "SERVER_SOFTWARE" = Some v ->
                (forall rest, v <> "Development/" +:+ rest) ->
                _is_dev_environment os_environ = false)
  /\ (os_environ !! "SERVER_SOFTWARE" = None ->
      _is_dev_environment os_environ = false).
Proof.
  unfold _is_dev_environment, dict_get. repeat split.
  - intros v rest -> ->. apply startswith_app.
  - intros v -> Hv.
    destruct (startswith v "Development/") eqn:E; [|done].
    apply startswith_inv in E as [r ->]. by destruct (Hv r).
  - by intros ->.
Qed.

Lemma is_dev_environment_spec_witness :
  _is_dev_environment development_environ = true
  /\ _is_dev_environment production_environ = false
  /\ _is_dev_environment ∅ = false.
Proof.
  split; [|split].
  - apply (proj1 (is_dev_environment_spec development_environ)
             "Development/2.0" "2.0"); reflexivity.
  - apply (proj1 (proj2 (is_dev_environment_spec production_environ))
             "Google App Engine/1.9.0"); [reflexivity|].
    intros rest H. discriminate H.
  - apply (proj2 (proj2 (is_dev_environment_spec ∅))). reflexivity.
Defined.

Example is_dev_environment_sdk :
  _is_dev_environment {[ "SERVER_SOFTWARE" := "Development/2.0" ]} = true.
Proof. reflexivity. Qed.

Example is_dev_environment_production :
  _is_dev_environment {[ "SERVER_SOFTWARE" := "Google App Engine/1.9.0" ]} = false.
Proof. reflexivity. Qed.

Example is_dev_environment_unset : _is_dev_environment ∅ = false.
Proof. reflexivity. Qed.

(** ** The driver selector *)

(** C8: the development-server client when the detector says so, whatever the
    registry holds; otherwise the proxy client when a stub is registered
    for "rdbms"; otherwise the public-API client. The answer is always
    one of the three. *)
Theorem dbapi_first_match (os_environ : environ) (apiproxy : gmap string stub) :
  (_is_dev_environment os_environ = true ->
   dbapi os_environ apiproxy = rdbms_mysqldb)
  /\ (_is_dev_environment os_environ = false ->
      is_Some (GetStub apiproxy "rdbms") ->
      dbapi os_environ apiproxy = rdbms_apiproxy)
  /\ (_is_dev_environment os_environ = false ->
      GetStub apiproxy "rdbms" = None ->
      dbapi os_environ apiproxy = rdbms_googleapi)
  /\ (dbapi os_environ apiproxy = rdbms_mysqldb
      \/ dbapi os_environ apiproxy = rdbms_apiproxy
      \/ dbapi os_environ apiproxy = rdbms_googleapi).
Proof.
  unfold dbapi.
  destruct (_is_dev_environment os_environ);
    destruct (GetStub apiproxy "rdbms") as [st|] eqn:E; simpl;
    repeat split; try done; auto;
    try (intros _ [? ?]; done).
Qed.

Lemma dbapi_first_match_witness :
  dbapi development_environ {[ "rdbms" := Stub 7 ]} = rdbms_mysqldb
  /\ dbapi production_environ {[ "rdbms" := Stub 7 ]} = rdbms_apiproxy
  /\ dbapi production_environ ∅ = rdbms_googleapi.
Proof.
  split; [|split].
  - apply (proj1 (dbapi_first_match development_environ {[ "rdbms" := Stub 7 ]})).
    reflexivity.
  - apply (proj1 (proj2 (dbapi_first_match production_environ {[ "rdbms" := Stub 7 ]}))).
    + reflexivity.
    + exists (Stub 7). reflexivity.
  - apply (proj1 (proj2 (proj2 (dbapi_first_match production_environ ∅))));
      reflexivity.
Defined.

Example dbapi_development_wins :
  dbapi {[ "SERVER_SOFTWARE" := "Development/2.0" ]} {[ "rdbms" := Stub 7 ]}
  = rdbms_mysqldb.
Proof. reflexivity. Qed.

Example dbapi_proxy :
  dbapi {[ "SERVER_SOFTWARE" := "Google App Engine/1.9.0" ]} {[ "rdbms" := Stub 7 ]}
  = rdbms_apiproxy.
Proof. reflexivity. Qed.

Example dbapi_public_api :
  dbapi ∅ {[ "memcache" := Stub 3 ]} = rdbms_googleapi.
Proof. reflexivity. Qed.

(** ** The pooling override *)

(** C5: the pool class is NullPool for every URL; the URL plays no part,
    and the method has no path that raises. *)
Theorem get_pool_class_NullPool (url url' : URL) :
  get_pool_class url = NullPool /\ get_pool_class url = get_pool_class url'.
Proof. split; reflexivity. Qed.

(** ** The connection-argument translator *)

Lemma create_connect_args_production (os_environ : environ) (url : URL) (X : string) :
  _is_dev_environment os_environ = false ->
  query url !! "instance" = Some X ->
  create_connect_args os_environ url
  = Return ([], <["conv" := PyRef CONVERTERS_addr]>
                  (<["instance" := PyStr X]>
                     (<["dsn" := PyStr ""]> (translate_connect_args url)))).
Proof.
  intros Hdev HX. unfold create_connect_args, getitem.
  by rewrite Hdev, HX.
Qed.

(** C1: outside the development server, with [instance=X] in the query, the call
    answers no positional arguments and keyword arguments in which
    [instance] is X, [dsn] is the empty string and [conv] is the
    CONVERTERS object itself. Under every key other than these three
    the keyword arguments agree with the base translation, no key of
    the base translation is lost, and a base translation that uses none
    of the three keys is contained in the answer as it is. *)
Theorem create_connect_args_instance (os_environ : environ) (url : URL) (X : string) :
  _is_dev_environment os_environ = false ->
  query url !! "instance" = Some X ->
  exists opts : gmap string pyobj,
    create_connect_args os_environ url = Return ([], opts)
    /\ opts !! "instance" = Some (PyStr X)
    /\ opts !! "dsn" = Some (PyStr "")
    /\ opts !! "conv" = Some (PyRef CONVERTERS_addr)
    /\ module_objects !! CONVERTERS_addr = Some CONVERTERS
    /\ (forall k, k ∉ assigned_keys -> opts !! k = translate_connect_args url !! k)
    /\ (forall k, is_Some (translate_connect_args url !! k) -> is_Some (opts !! k))
    /\ ((forall k, k ∈ assigned_keys -> translate_connect_args url !! k = None) ->
        translate_connect_args url ⊆ opts).
Proof.
  intros Hdev HX. eexists. split.
  { by apply create_connect_args_production. }
  assert (Hframe : forall k, k ∉ assigned_keys ->
            (<["conv" := PyRef CONVERTERS_addr]>
               (<["instance" := PyStr X]>
                  (<["dsn" := PyStr ""]> (translate_connect_args url)))) !! k
            = translate_connect_args url !! k).
  { intros k Hk. unfold assigned_keys in Hk.
    rewrite !lookup_insert_ne; [done|..]; intros <-; apply Hk; set_solver. }
  repeat split.
  - by simplify_map_eq.
  - by simplify_map_eq.
  - by simplify_map_eq.
  - exact Hframe.
  - intros k Hk.
    destruct (decide (k ∈ assigned_keys)) as [Hin|Hout].
    + unfold assigned_keys in Hin.
      apply elem_of_cons in Hin as [->|Hin]; [by simplify_map_eq|].
      apply elem_of_cons in Hin as [->|Hin]; [by simplify_map_eq|].
      apply elem_of_cons in Hin as [->|Hin]; [by simplify_map_eq|].
      by apply elem_of_nil in Hin.
    + by rewrite Hframe.
  - intros Hfree. apply map_subseteq_spec. intros k v Hkv.
    rewrite Hframe; [done|].
    intros Hin. apply Hfree in Hin. congruence.
Qed.

Lemma create_connect_args_instance_witness :
  exists opts : gmap string pyobj,
    create_connect_args production_environ url_with_instance = Return ([], opts)
    /\ opts !! "instance" = Some (PyStr "project:inst")
    /\ opts !! "dsn" = Some (PyStr "")
    /\ opts !! "conv" = Some (PyRef CONVERTERS_addr)
    /\ module_objects !! CONVERTERS_addr = Some CONVERTERS
    /\ (forall k, k ∉ assigned_keys ->
          opts !! k = translate_connect_args url_with_instance !! k)
    /\ (forall k, is_Some (translate_connect_args url_with_instance !! k) ->
          is_Some (opts !! k))
    /\ ((forall k, k ∈ assigned_keys ->
           translate_connect_args url_with_instance !! k = None) ->
        translate_connect_args url_with_instance ⊆ opts).
Proof.
  apply (create_connect_args_instance production_environ url_with_instance "project:inst");
    reflexivity.
Defined.

Example create_connect_args_instance_run :
  create_connect_args production_environ url_with_instance
  = Return ([], {[ "database" := PyStr "mydb";
                   "dsn" := PyStr "";
                   "instance" := PyStr "project:inst";
                   "conv" := PyRef CONVERTERS_addr ]}).
Proof. vm_compute. reflexivity. Qed.

(** C2, as the code has it: outside the development server a URL without
    [instance] makes the call itself raise KeyError, at the subscript of
    the query dictionary; no keyword arguments are produced. *)
Theorem create_connect_args_missing_instance (os_environ : environ) (url : URL) :
  _is_dev_environment os_environ = false ->
  query url !! "instance" = None ->
  create_connect_args os_environ url = Raise (KeyError "instance").
Proof.
  intros Hdev HX. unfold create_connect_args, getitem.
  by rewrite Hdev, HX.
Qed.

Lemma create_connect_args_missing_instance_witness :
  create_connect_args production_environ url_without_instance
  = Raise (KeyError "instance").
Proof.
  apply (create_connect_args_missing_instance production_environ url_without_instance);
    reflexivity.
Defined.

(** C2 as stated fails: here is a URL without [instance], outside the
    development server, on which the call does not complete. *)
Lemma create_connect_args_missing_instance_raises :
  query url_without_instance !! "instance" = None
  /\ _is_dev_environment production_environ = false
  /\ ~ returns (create_connect_args production_environ url_without_instance).
Proof.
  repeat split.
  intros [a Ha]. vm_compute in Ha. discriminate Ha.
Qed.

(** C7: on the development server the call answers the base translation as it is,
    so [dsn], [instance] and [conv] are present only where the base
    translation had them, with the value it gave; this holds whether or
    not the query has an [instance]. *)
Theorem create_connect_args_development (os_environ : environ) (url : URL) :
  _is_dev_environment os_environ = true ->
  create_connect_args os_environ url = Return ([], translate_connect_args url)
  /\ (forall opts, create_connect_args os_environ url = Return ([], opts) ->
        forall k, k ∈ assigned_keys -> opts !! k = translate_connect_args url !! k).
Proof.
  intros Hdev. unfold create_connect_args. rewrite Hdev. simpl.
  split; [done|]. intros opts [= <-]. done.
Qed.

Lemma create_connect_args_development_witness :
  create_connect_args development_environ url_without_instance
  = Return ([], translate_connect_args url_without_instance)
  /\ (forall opts,
        create_connect_args development_environ url_without_instance = Return ([], opts) ->
        forall k, k ∈ assigned_keys ->
                  opts !! k = translate_connect_args url_without_instance !! k).
Proof.
  apply (create_connect_args_development development_environ url_without_instance).
  reflexivity.
Defined.

(** ** The decode function of the converter table *)

Lemma decode_latin1_total (arg : bytes) :
  unicode arg "latin-1" = Return (map Byte.to_N arg).
Proof. reflexivity. Qed.

Lemma decode_utf8_raises (arg : bytes) (e : exn) :
  decode_utf8 arg = Raise e -> e = UnicodeDecodeError "utf8".
Proof.
  remember (length arg) as n eqn:Hn.
  revert arg Hn. induction n as [n IH] using lt_wf_ind. intros arg Hn.
  destruct arg as [|b0 s1]; simpl; [done|].
  assert (Hrec : forall (s : bytes) (f : unicode_string -> unicode_string),
            (length s < n)%nat ->
            (decode_utf8 s ≫= (fun u => Return (f u))) = Raise e ->
            e = UnicodeDecodeError "utf8").
  { intros s f Hlt H. destruct (decode_utf8 s) as [u|e'] eqn:E; simpl in H.
    - discriminate H.
    - injection H as <-. by eapply IH. }
  subst n. simpl in Hrec.
  destruct (utf8_code_length (Byte.to_N b0)) as [|[|[|[|[|?]]]]]; try congruence.
  - apply Hrec. lia.
  - destruct s1 as [|b1 s2]; [congruence|].
    destruct (is_continuation b1); [|congruence].
    apply Hrec. simpl. lia.
  - destruct s1 as [|b1 [|b2 s3]]; try congruence.
    match goal with |- context [if ?c then _ else _] => destruct c end; [|congruence].
    apply Hrec. simpl. lia.
  - destruct s1 as [|b1 [|b2 [|b3 s4]]]; try congruence.
    match goal with |- context [if ?c then _ else _] => destruct c end; [|congruence].
    apply Hrec. simpl. lia.
Qed.

Lemma Str2Unicode_utf8 (arg : bytes) (u : unicode_string) :
  unicode arg "utf-8" = Return u -> Str2Unicode arg = Return (Unicode u).
Proof.
  intros H. unfold Str2Unicode, Str2Unicode_with. by rewrite H.
Qed.

Lemma Str2Unicode_latin1 (arg : bytes) :
  raises (unicode arg "utf-8") ->
  Str2Unicode arg = Return (Unicode (map Byte.to_N arg)).
Proof.
  intros [e He]. unfold Str2Unicode, Str2Unicode_with. rewrite He.
  apply decode_utf8_raises in He as ->. reflexivity.
Qed.

(** C6: a byte string that the UTF-8 decoder accepts is answered as the
    UTF-8 decoder decodes it; one that it rejects and the Latin-1 decoder
    accepts is answered as the Latin-1 decoder decodes it; the call never
    raises. The last branch is a property of the chain itself: whatever
    the decoders are, when both attempts end in UnicodeDecodeError the
    answer is the string "[ERROR]". *)
Theorem Str2Unicode_fallback (arg : bytes) :
  (forall u, unicode arg "utf-8" = Return u ->
             Str2Unicode arg = Return (Unicode u))
  /\ (forall u, raises (unicode arg "utf-8") ->
                unicode arg "latin-1" = Return u ->
                Str2Unicode arg = Return (Unicode u))
  /\ (forall decoder c1 c2,
        decoder arg "utf-8" = Raise (UnicodeDecodeError c1) ->
        decoder arg "latin-1" = Raise (UnicodeDecodeError c2) ->
        Str2Unicode_with decoder arg = Return (Str "[ERROR]"))
  /\ (raises (unicode arg "utf-8") -> raises (unicode arg "latin-1") ->
      Str2Unicode arg = Return (Str "[ERROR]"))
  /\ returns (Str2Unicode arg).
Proof.
  repeat split.
  - apply Str2Unicode_utf8.
  - intros u Hraise Hlatin. rewrite decode_latin1_total in Hlatin.
    injection Hlatin as <-. by apply Str2Unicode_latin1.
  - intros decoder c1 c2 H1 H2. unfold Str2Unicode_with. by rewrite H1, H2.
  - intros _ [e He]. rewrite decode_latin1_total in He. discriminate He.
  - destruct (unicode arg "utf-8") as [u|e] eqn:E.
    + exists (Unicode u). by apply Str2Unicode_utf8.
    + exists (Unicode (map Byte.to_N arg)). apply Str2Unicode_latin1. by exists e.
Qed.

Lemma Str2Unicode_fallback_witness :
  Str2Unicode [x63; x61; x66; xc3; xa9] = Return (Unicode [0x63; 0x61; 0x66; 0xE9]%N)
  /\ Str2Unicode [x63; x61; x66; xe9] = Return (Unicode [0x63; 0x61; 0x66; 0xE9]%N).
Proof.
  split.
  - apply (proj1 (Str2Unicode_fallback [x63; x61; x66; xc3; xa9])). reflexivity.
  - apply (proj1 (proj2 (Str2Unicode_fallback [x63; x61; x66; xe9]))).
    + exists (UnicodeDecodeError "utf8"). reflexivity.
    + reflexivity.
Defined.

(** The bytes 63 61 66 c3 a9 are UTF-8 for "cafe" with an acute accent
    on the e (U+00E9). *)
Example Str2Unicode_utf8_run :
  Str2Unicode [x63; x61; x66; xc3; xa9] = Return (Unicode [0x63; 0x61; 0x66; 0xE9]%N).
Proof. reflexivity. Qed.

(** The bytes 63 61 66 e9 are not UTF-8; Latin-1 reads the same text. *)
Example Str2Unicode_latin1_run :
  unicode [x63; x61; x66; xe9] "utf-8" = Raise (UnicodeDecodeError "utf8")
  /\ Str2Unicode [x63; x61; x66; xe9] = Return (Unicode [0x63; 0x61; 0x66; 0xE9]%N).
Proof. split; reflexivity. Qed.

(** The euro sign, a four-byte sequence, and an overlong form. *)
Example decode_utf8_runs :
  decode_utf8 [xe2; x82; xac] = Return [0x20AC]%N
  /\ decode_utf8 [xf0; x9f; x98; x80] = Return [0x1F600]%N
  /\ decode_utf8 [xc0; x80] = Raise (UnicodeDecodeError "utf8")
  /\ decode_utf8 [xe0; x80; x80] = Raise (UnicodeDecodeError "utf8")
  /\ decode_utf8 [xf4; x90; x80; x80] = Raise (UnicodeDecodeError "utf8")
  /\ decode_utf8 [xe2; x82] = Raise (UnicodeDecodeError "utf8").
Proof. repeat split; reflexivity. Qed.

(** The chain with a decoder that rejects everything reaches the last
    branch. *)
Example Str2Unicode_with_rejecting_decoder :
  Str2Unicode_with (fun _ enc => Raise (UnicodeDecodeError enc)) [xff]
  = Return (Str "[ERROR]").
Proof. reflexivity. Qed.

(** C10: Latin-1 decodes every byte string, so the second attempt never
    raises and the last branch is never taken. The answer is always the
    decoded argument: its UTF-8 decoding when that attempt succeeds, and
    otherwise its Latin-1 decoding, one code point for each byte; it is
    never the string "[ERROR]", which the chain answers only after a
    second attempt that raised. *)
Theorem Str2Unicode_sentinel_unreachable (arg : bytes) :
  unicode arg "latin-1" = Return (map Byte.to_N arg)
  /\ ~ raises (unicode arg "latin-1")
  /\ (exists u, Str2Unicode arg = Return (Unicode u)
                /\ (unicode arg "utf-8" = Return u
                    \/ (raises (unicode arg "utf-8")
                        /\ unicode arg "latin-1" = Return u
                        /\ u = map Byte.to_N arg)))
  /\ Str2Unicode arg <> Return (Str "[ERROR]")
  /\ (forall decoder,
        Str2Unicode_with decoder arg = Return (Str "[ERROR]") ->
        (exists c1, decoder arg "utf-8" = Raise (UnicodeDecodeError c1))
        /\ (exists c2, decoder arg "latin-1" = Raise (UnicodeDecodeError c2))).
Proof.
  assert (H : exists u, Str2Unicode arg = Return (Unicode u)
                /\ (unicode arg "utf-8" = Return u
                    \/ (raises (unicode arg "utf-8")
                        /\ unicode arg "latin-1" = Return u
                        /\ u = map Byte.to_N arg))).
  { destruct (unicode arg "utf-8") as [u|e] eqn:E.
    - exists u. split; [by apply Str2Unicode_utf8|by left].
    - exists (map Byte.to_N arg). split.
      + apply Str2Unicode_latin1. by exists e.
      + right. split; [by exists e|done]. }
  split; [reflexivity|]. split; [|split; [exact H|split]].
  - intros [e He]. discriminate He.
  - destruct H as (u & -> & _). discriminate.
  - intros decoder. unfold Str2Unicode_with, try_except_UnicodeDecodeError.
    destruct (decoder arg "utf-8") as [u1|[]]; simpl; try discriminate.
    destruct (decoder arg "latin-1") as [u2|[]]; simpl; try discriminate.
    intros _. eauto.
Qed.

(** Two byte strings of different answers: the answer follows the
    argument. *)
Example Str2Unicode_follows_argument :
  Str2Unicode [x4f; x4b] = Return (Unicode [0x4F; 0x4B]%N)
  /\ Str2Unicode [xff; xfe] = Return (Unicode [0xFF; 0xFE]%N).
Proof. split; reflexivity. Qed.

(** ** The error-code extractor *)

Section greedy_run.
Context {R : Type}.
Implicit Types (k : nat -> list ascii -> option R).

Lemma plus_atom_sound a s pos k m :
  plus_atom a s pos k = Some m ->
  exists ds r, s = ds ++ r /\ ds <> [] /\ forallb (test a) ds = true
               /\ k (pos + length ds)%nat r = Some m.
Proof.
  revert pos. induction s as [|c s IH]; intros pos H; simpl in H; [done|].
  destruct (test a c) eqn:Hc; [|done].
  destruct (plus_atom a s (S pos) k) as [m'|] eqn:E.
  - injection H as ->.
    destruct (IH _ E) as (ds & r & -> & _ & Hds & Hk).
    exists (c :: ds), r. simpl. rewrite Hc, Hds.
    repeat split; [done|]. by rewrite <- Nat.add_succ_comm.
  - exists [c], s. simpl. rewrite Hc.
    repeat split; [done|]. by rewrite Nat.add_1_r.
Qed.

(** The continuation of a greedy run that refuses to start on one more
    character of the class sees the longest run only. *)
Lemma plus_atom_greedy a ds r pos k :
  ds <> [] ->
  forallb (test a) ds = true ->
  (forall p c s', test a c = true -> k p (c :: s') = None) ->
  match r with c :: _ => test a c = false | [] => True end ->
  plus_atom a (ds ++ r) pos k = k (pos + length ds)%nat r.
Proof.
  intros Hne Hds Hk Hr. revert pos.
  induction ds as [|c ds IH]; intros pos; [done|].
  simpl in *. apply andb_true_iff in Hds as [Hc Hds]. rewrite Hc.
  destruct ds as [|d ds].
  - simpl. rewrite Nat.add_1_r.
    destruct r as [|x r]; simpl; [done|].
    by rewrite Hr.
  - rewrite (IH ltac:(done) Hds (S pos)).
    rewrite <- Nat.add_succ_comm.
    destruct (k (S pos + length (d :: ds))%nat r) eqn:E; [done|].
    simpl in Hds. apply andb_true_iff in Hds as [Hd _].
    simpl. by rewrite (Hk (S pos) d (ds ++ r) Hd).
Qed.
End greedy_run.

Lemma plus_atom_ext {R} a s pos (k k' : nat -> list ascii -> option R) :
  (forall p s', k p s' = k' p s') ->
  plus_atom a s pos k = plus_atom a s pos k'.
Proof.
  intros Hk. revert pos. induction s as [|c s IH]; intros pos; simpl; [done|].
  by rewrite IH, Hk.
Qed.

Lemma run_tail (c : ascii) pos s (g : match_object) :
  c <> "L"%char ->
  run (Seq (Opt (Atom (Lit "L"))) (Atom (Lit c))) pos s g (fun _ _ g' => Some g')
  = if tail_ok c s then Some g else None.
Proof.
  intros Hc. destruct s as [|x s]; cbn [run test tail_ok]; [done|].
  destruct (Ascii.eqb x "L") eqn:Hx.
  - apply Ascii.eqb_eq in Hx as ->.
    assert (Ascii.eqb "L" c = false) as HL.
    { apply Ascii.eqb_neq. congruence. }
    destruct s as [|y s]; [by rewrite HL|].
    destruct (Ascii.eqb y c); [done|by rewrite HL].
  - done.
Qed.

Lemma tail_ok_spec (c : ascii) (r : list ascii) :
  c <> "L"%char ->
  tail_ok c r = true <->
  exists rest, r = c :: rest \/ r = "L"%char :: c :: rest.
Proof.
  intros Hc. unfold tail_ok. split.
  - destruct r as [|x r]; [done|].
    destruct (Ascii.eqb x "L") eqn:Hx.
    + apply Ascii.eqb_eq in Hx as ->.
      destruct r as [|y r]; [done|].
      intros ->%Ascii.eqb_eq. exists r. by right.
    + intros ->%Ascii.eqb_eq. exists r. by left.
  - intros [rest [-> | ->]].
    + apply Ascii.eqb_neq in Hc as ->. apply Ascii.eqb_refl.
    + rewrite Ascii.eqb_refl. apply Ascii.eqb_refl.
Qed.

Lemma tail_ok_digit (c x : ascii) (s : list ascii) :
  is_digit c = false -> is_digit x = true -> tail_ok c (x :: s) = false.
Proof.
  intros Hc Hx. unfold tail_ok.
  destruct (Ascii.eqb x "L") eqn:E.
  { apply Ascii.eqb_eq in E as ->. discriminate Hx. }
  apply Ascii.eqb_neq. congruence.
Qed.

Lemma tail_ok_not_digit (c : ascii) (r : list ascii) :
  is_digit c = false -> tail_ok c r = true ->
  match r with x :: _ => is_digit x = false | [] => True end.
Proof.
  intros Hc Hr. destruct r as [|x r]; [done|].
  destruct (is_digit x) eqn:Hx; [|done].
  by rewrite (tail_ok_digit c x r Hc Hx) in Hr.
Qed.

Lemma match_unfold (s : list ascii) :
  match_ error_code_pattern s
  = match colon_alternative s with
    | Some m => Some m
    | None =>
        match s with
        | c :: s1 => if Ascii.eqb c "(" then paren_alternative s1 else None
        | [] => None
        end
    end.
Proof.
  unfold colon_alternative, paren_alternative.
  transitivity
    (match plus_atom Digit s 0
             (fun p s' => run (Seq (Opt (Atom (Lit "L"))) (Atom (Lit ":"))) p s'
                              (<[1%nat := take (p - 0) s]> ∅) (fun _ _ g => Some g)) with
     | Some m => Some m
     | None =>
         match s with
         | c :: s1 =>
             if Ascii.eqb c "(" then
               plus_atom Digit s1 1
                 (fun p s' => run (Seq (Opt (Atom (Lit "L"))) (Atom (Lit ","))) p s'
                                  (<[2%nat := take (p - 1) s1]> ∅) (fun _ _ g => Some g))
             else None
         | [] => None
         end
     end).
  { destruct s; reflexivity. }
  rewrite (plus_atom_ext Digit s 0 _
             (fun p s' => if tail_ok ":" s'
                          then Some (<[1%nat := take (p - 0) s]> ∅) else None)).
  2:{ intros p s'. by apply run_tail. }
  destruct (plus_atom Digit s 0 _); [done|].
  destruct s as [|c s1]; [done|].
  destruct (Ascii.eqb c "("); [|done].
  apply plus_atom_ext. intros p s'. by apply run_tail.
Qed.

Lemma alternative_complete (c : ascii) (n start : nat) (s ds r : list ascii) :
  is_digit c = false -> c <> "L"%char ->
  digits ds ->
  tail_ok c r = true ->
  plus_atom Digit (ds ++ r) start
    (fun p s' => if tail_ok c s'
                 then Some (<[n := take (p - start) (ds ++ r)]> ∅) else None)
  = Some ({[ n := ds ]} : match_object).
Proof.
  intros Hc HL [Hne Hds] Hr.
  rewrite plus_atom_greedy; [| done | done | | by eapply tail_ok_not_digit].
  - rewrite Hr. do 2 f_equal.
    replace (start + length ds - start)%nat with (length ds) by lia.
    by rewrite take_app_length.
  - intros p x s' Hx. simpl in Hx. by rewrite (tail_ok_digit c x s' Hc Hx).
Qed.

Lemma alternative_sound (c : ascii) (n start : nat) (s : list ascii) (m : match_object) :
  c <> "L"%char ->
  plus_atom Digit s start
    (fun p s' => if tail_ok c s'
                 then Some (<[n := take (p - start) s]> ∅) else None) = Some m ->
  exists ds rest, digits ds /\ m = {[ n := ds ]}
    /\ (s = ds ++ c :: rest \/ s = ds ++ "L"%char :: c :: rest).
Proof.
  intros HL H. apply plus_atom_sound in H as (ds & r & -> & Hne & Hds & Hk).
  destruct (tail_ok c r) eqn:Hr; [|done].
  apply tail_ok_spec in Hr as [rest Hrest]; [|done].
  exists ds, rest. split; [done|]. split.
  - injection Hk as <-.
    replace (start + length ds - start)%nat with (length ds) by lia.
    by rewrite take_app_length.
  - destruct Hrest as [-> | ->]; auto.
Qed.

Lemma colon_alternative_not_digit (c : ascii) (s : list ascii) :
  is_digit c = false -> colon_alternative (c :: s) = None.
Proof. intros Hc. unfold colon_alternative. simpl. by rewrite Hc. Qed.

(** The pattern matches a string of the first shape with group 1 set to
    the digits and group 2 not taking part. *)
Lemma match_colon_form (s ds : list ascii) :
  digits ds -> colon_form s ds ->
  match_ error_code_pattern s = Some {[ 1%nat := ds ]}.
Proof.
  intros Hds [rest Hs]. rewrite match_unfold. unfold colon_alternative.
  assert (exists r, s = ds ++ r /\ tail_ok ":" r = true) as (r & -> & Hr).
  { destruct Hs as [-> | ->]; eexists; (split; [reflexivity|]);
      apply tail_ok_spec; [done| |done|]; eauto. }
  by rewrite (alternative_complete ":" 1 0 (ds ++ r) ds r).
Qed.

(** ... and one of the second shape with group 2 set to the digits and
    group 1 not taking part. *)
Lemma match_paren_form (s ds : list ascii) :
  digits ds -> paren_form s ds ->
  match_ error_code_pattern s = Some {[ 2%nat := ds ]}.
Proof.
  intros Hds [rest Hs]. rewrite match_unfold.
  assert (exists r, s = "("%char :: ds ++ r /\ tail_ok "," r = true) as (r & -> & Hr).
  { destruct Hs as [-> | ->]; eexists; (split; [reflexivity|]);
      apply tail_ok_spec; [done| |done|]; eauto. }
  rewrite colon_alternative_not_digit by done.
  rewrite Ascii.eqb_refl. unfold paren_alternative.
  by rewrite (alternative_complete "," 2 1 (ds ++ r) ds r).
Qed.

(** Every match is of one of the two shapes. *)
Lemma match_inv (s : list ascii) (m : match_object) :
  match_ error_code_pattern s = Some m ->
  exists ds, digits ds
    /\ ((colon_form s ds /\ m = {[ 1%nat := ds ]})
        \/ (paren_form s ds /\ m = {[ 2%nat := ds ]})).
Proof.
  rewrite match_unfold. destruct (colon_alternative s) as [m'|] eqn:E1.
  - intros [= <-]. unfold colon_alternative in E1.
    apply alternative_sound in E1 as (ds & rest & Hds & -> & Hs); [|done].
    exists ds. split; [done|]. left. split; [|done]. by exists rest.
  - destruct s as [|c s1]; [done|].
    destruct (Ascii.eqb c "(") eqn:Hc; [|done].
    apply Ascii.eqb_eq in Hc as ->. unfold paren_alternative. intros E2.
    apply alternative_sound in E2 as (ds & rest & Hds & -> & Hs); [|done].
    exists ds. split; [done|]. right. split; [|done].
    exists rest. destruct Hs as [-> | ->]; auto.
Qed.

Lemma int_digits (ds : list ascii) : digits ds -> int ds = Return (decimal ds).
Proof.
  intros [Hne Hds]. unfold int. destruct ds; [done|]. by rewrite Hds.
Qed.

Lemma truthy_digits (ds : list ascii) : digits ds -> truthy (Some ds) = true.
Proof. intros [Hne _]. by destruct ds. Qed.

(** The code the method reads off a match of either shape. *)
Lemma code_of_match (n : nat) (ds : list ascii) :
  digits ds -> n = 1%nat \/ n = 2%nat ->
  py_or (group {[ n := ds ]} 1) (group {[ n := ds ]} 2) = Some ds.
Proof.
  intros Hds [-> | ->]; unfold py_or, group.
  - rewrite lookup_singleton_eq. by rewrite truthy_digits.
  - rewrite lookup_singleton_ne by done. simpl. by rewrite lookup_singleton_eq.
Qed.

Lemma extract_error_code_match (exception : string) (n : nat) (ds : list ascii) :
  digits ds -> n = 1%nat \/ n = 2%nat ->
  match_ error_code_pattern (list_ascii_of_string exception) = Some {[ n := ds ]} ->
  _extract_error_code exception = Return (Some (decimal ds)).
Proof.
  intros Hds Hn Hm. unfold _extract_error_code. rewrite Hm.
  rewrite code_of_match by done. rewrite truthy_digits by done.
  by rewrite int_digits.
Qed.

(** C3: when the string form of the exception begins "<digits>:",
    "<digits>L:", "(<digits>," or "(<digits>L,", the pattern matches with
    the digits in the one group that took part, and the method answers
    their value as an integer; on every other string the method answers
    None. The three strings of the specification give 1045, 1062 and
    None. *)
Theorem extract_error_code_spec :
  (forall (exception : string) (ds : list ascii),
      leading_code (list_ascii_of_string exception) ds ->
      (exists m, match_ error_code_pattern (list_ascii_of_string exception) = Some m
                 /\ py_or (group m 1) (group m 2) = Some ds
                 /\ int ds = Return (decimal ds))
      /\ _extract_error_code exception = Return (Some (decimal ds)))
  /\ (forall exception : string,
         (forall ds, ~ leading_code (list_ascii_of_string exception) ds) ->
         match_ error_code_pattern (list_ascii_of_string exception) = None
         /\ _extract_error_code exception = Return None)
  /\ _extract_error_code "1045: Access denied" = Return (Some 1045%Z)
  /\ _extract_error_code "(1062, 'Duplicate entry')" = Return (Some 1062%Z)
  /\ _extract_error_code "Some unrelated rewrapped message" = Return None.
Proof.
  split; [|split; [|repeat split; reflexivity]].
  - intros exception ds [Hds [Hform | Hform]].
    + pose proof (match_colon_form _ _ Hds Hform) as Hm. split.
      * eexists. split; [exact Hm|]. split; [apply code_of_match; auto|].
        by apply int_digits.
      * apply (extract_error_code_match exception 1 ds); auto.
    + pose proof (match_paren_form _ _ Hds Hform) as Hm. split.
      * eexists. split; [exact Hm|]. split; [apply code_of_match; auto|].
        by apply int_digits.
      * apply (extract_error_code_match exception 2 ds); auto.
  - intros exception Hnone.
    assert (match_ error_code_pattern (list_ascii_of_string exception) = None) as Hm.
    { destruct (match_ _ _) as [m|] eqn:E; [|done].
      apply match_inv in E as (ds & Hds & [[Hf _] | [Hf _]]);
        destruct (Hnone ds); split; auto. }
    split; [done|]. unfold _extract_error_code. by rewrite Hm.
Qed.

Lemma extract_error_code_spec_witness :
  _extract_error_code "2013L: Lost connection" = Return (Some 2013%Z)
  /\ _extract_error_code "(1213L, 'Deadlock found')" = Return (Some 1213%Z)
  /\ _extract_error_code "Lost connection" = Return None.
Proof.
  destruct extract_error_code_spec as (Hmatch & Hnone & _).
  split; [|split].
  - apply (Hmatch "2013L: Lost connection" (list_ascii_of_string "2013")).
    split; [split; [discriminate|reflexivity]|].
    left. exists (list_ascii_of_string " Lost connection"). right. reflexivity.
  - apply (Hmatch "(1213L, 'Deadlock found')" (list_ascii_of_string "1213")).
    split; [split; [discriminate|reflexivity]|].
    right. exists (list_ascii_of_string " 'Deadlock found')"). right. reflexivity.
  - apply (Hnone "Lost connection").
    intros ds [[Hne Hds] [[rest [H|H]] | [rest [H|H]]]];
      try discriminate H;
      (destruct ds as [|d ds]; [by destruct Hne|]);
      simpl in H; injection H as <- _; discriminate Hds.
Defined.

Example extract_error_code_long_suffix :
  _extract_error_code "2013L: Lost connection" = Return (Some 2013%Z)
  /\ _extract_error_code "(1213L, 'Deadlock found')" = Return (Some 1213%Z).
Proof. split; reflexivity. Qed.

Example extract_error_code_no_match :
  _extract_error_code "" = Return None
  /\ _extract_error_code "1045 Access denied" = Return None
  /\ _extract_error_code " 1045: Access denied" = Return None
  /\ _extract_error_code "(1062L 'Duplicate entry')" = Return None
  /\ _extract_error_code ": no digits" = Return None.
Proof. repeat split; reflexivity. Qed.






(** * Further properties of the module *)

(** ** The translator and the selector together *)

(** X1: the call returns exactly when the process runs on the development
    server or the query names an [instance]; the only exception it can
    raise is KeyError for that key, and what it returns never has
    positional arguments. *)
Theorem create_connect_args_outcome (os_environ : environ) (url : URL) :
  (returns (create_connect_args os_environ url) <->
   _is_dev_environment os_environ = true \/ is_Some (query url !! "instance"))
  /\ (forall e, create_connect_args os_environ url = Raise e -> e = KeyError "instance")
  /\ (forall args opts,
        create_connect_args os_environ url = Return (args, opts) -> args = []).
Proof.
  unfold create_connect_args, getitem.
  destruct (_is_dev_environment os_environ);
    destruct (query url !! "instance") as [X|]; simpl; repeat split;
    try (intros; by eexists); try (intros; by left); try (intros; by right);
    try congruence.
  - intros [a Ha]. discriminate Ha.
  - intros [H | [x H]]; discriminate H.
Qed.

(** X2: of the query string only [instance] is read: two URLs with the
    same base translation and the same [instance] entry get the same
    answer, whatever else their queries hold. *)
Theorem create_connect_args_query_frame (os_environ : environ) (url url' : URL) :
  translate_connect_args url = translate_connect_args url' ->
  query url !! "instance" = query url' !! "instance" ->
  create_connect_args os_environ url = create_connect_args os_environ url'.
Proof.
  intros Hbase Hinst. unfold create_connect_args, getitem.
  by rewrite Hbase, Hinst.
Qed.

Lemma create_connect_args_query_frame_witness :
  create_connect_args production_environ url_with_instance
  = create_connect_args production_environ
      {| translate_connect_args := {[ "database" := PyStr "mydb" ]};
         query := {[ "instance" := "project:inst"; "charset" := "utf8" ]} |}.
Proof.
  apply (create_connect_args_query_frame production_environ url_with_instance);
    reflexivity.
Defined.

(** X3: the keyword arguments always fit the client that [dbapi] selects
    in the same process. With the development client they are the base
    translation; with either of the other two they carry the empty
    [dsn], the [instance] of the query and the converter table. *)
Theorem connect_args_fit_dbapi (os_environ : environ) (apiproxy : gmap string stub)
        (url : URL) (args : list pyobj) (opts : gmap string pyobj) :
  create_connect_args os_environ url = Return (args, opts) ->
  (dbapi os_environ apiproxy = rdbms_mysqldb
   /\ opts = translate_connect_args url)
  \/ (dbapi os_environ apiproxy <> rdbms_mysqldb
      /\ opts !! "dsn" = Some (PyStr "")
      /\ opts !! "conv" = Some (PyRef CONVERTERS_addr)
      /\ exists X, query url !! "instance" = Some X
                   /\ opts !! "instance" = Some (PyStr X)).
Proof.
  unfold create_connect_args, dbapi, getitem.
  destruct (_is_dev_environment os_environ); simpl.
  - intros [= <- <-]. by left.
  - destruct (query url !! "instance") as [X|]; simpl; [|done].
    intros [= <- <-]. right. repeat split.
    + by destruct (truthy_stub _).
    + by simplify_map_eq.
    + by simplify_map_eq.
    + exists X. by simplify_map_eq.
Qed.

Lemma connect_args_fit_dbapi_witness :
  (dbapi production_environ ∅ = rdbms_mysqldb
   /\ production_opts = translate_connect_args url_with_instance)
  \/ (dbapi production_environ ∅ <> rdbms_mysqldb
      /\ production_opts !! "dsn" = Some (PyStr "")
      /\ production_opts !! "conv" = Some (PyRef CONVERTERS_addr)
      /\ exists X, query url_with_instance !! "instance" = Some X
                   /\ production_opts !! "instance" = Some (PyStr X)).
Proof.
  apply (connect_args_fit_dbapi production_environ ∅ url_with_instance []).
  vm_compute. reflexivity.
Defined.

(** X4: the production keyword arguments have exactly the keys of the
    base translation together with [dsn], [instance] and [conv]. *)
Theorem create_connect_args_keys (os_environ : environ) (url : URL)
        (args : list pyobj) (opts : gmap string pyobj) :
  _is_dev_environment os_environ = false ->
  create_connect_args os_environ url = Return (args, opts) ->
  dom opts = {[ "dsn"; "instance"; "conv" ]} ∪ dom (translate_connect_args url).
Proof.
  intros Hdev. unfold create_connect_args, getitem. rewrite Hdev. simpl.
  destruct (query url !! "instance") as [X|]; simpl; [|done].
  intros [= <- <-]. rewrite !dom_insert_L.
  apply set_eq. intros k. set_unfold. tauto.
Qed.

Lemma create_connect_args_keys_witness :
  dom production_opts
  = {[ "dsn"; "instance"; "conv" ]} ∪ dom (translate_connect_args url_with_instance).
Proof.
  apply (create_connect_args_keys production_environ url_with_instance []).
  - reflexivity.
  - vm_compute. reflexivity.
Defined.

(** X5: only SERVER_SOFTWARE and the stub of the "rdbms" service are
    read: setting any other environment variable or registering a stub
    for any other service changes neither the detector nor the selected
    client. *)
Theorem dbapi_frame (os_environ : environ) (apiproxy : gmap string stub)
        (name value service : string) (st : stub) :
  name <> "SERVER_SOFTWARE" ->
  service <> "rdbms" ->
  _is_dev_environment (<[name := value]> os_environ) = _is_dev_environment os_environ
  /\ dbapi (<[name := value]> os_environ) (<[service := st]> apiproxy)
     = dbapi os_environ apiproxy.
Proof.
  intros Hname Hservice.
  assert (H : _is_dev_environment (<[name := value]> os_environ)
              = _is_dev_environment os_environ).
  { unfold _is_dev_environment, dict_get. by rewrite lookup_insert_ne. }
  split; [exact H|].
  unfold dbapi, GetStub. rewrite H. by rewrite lookup_insert_ne.
Qed.

Lemma dbapi_frame_witness :
  _is_dev_environment (<["APPLICATION_ID" := "dev~app"]> development_environ)
  = _is_dev_environment development_environ
  /\ dbapi (<["APPLICATION_ID" := "dev~app"]> development_environ)
           (<["memcache" := Stub 3]> ∅)
     = dbapi development_environ ∅.
Proof.
  apply (dbapi_frame development_environ ∅ "APPLICATION_ID" "dev~app" "memcache" (Stub 3));
    discriminate.
Defined.

(** ** The converter table *)

Section dict_display.
Context {K V : Type} `{EqDecision K}.
Implicit Types (entries : list (K * V)) (k : K) (v : V).



End dict_display.

(** Of two entries with one key the display keeps the later. *)
Example dict_display_keeps_later :
  dict_display [(1%nat, "a"); (2%nat, "b"); (1%nat, "c")] 1%nat = Some "c"
  /\ dict_display [(1%nat, "a"); (2%nat, "b"); (1%nat, "c")] 2%nat = Some "b"
  /\ dict_display [(1%nat, "a"); (2%nat, "b"); (1%nat, "c")] 3%nat = None.
Proof. repeat split; reflexivity. Qed.





(** ** The decode function, byte by byte *)

Lemma decode_utf8_unfold (s : bytes) :
  decode_utf8 s
  = match s with
    | [] => Return []
    | _ =>
        match utf8_next s with
        | Some (c, rest) => decode_utf8 rest ≫= (fun u => Return (c :: u))
        | None => Raise (UnicodeDecodeError "utf8")
        end
    end.
Proof.
  destruct s as [|b0 s1]; [done|]. unfold utf8_next. simpl.
  destruct (utf8_code_length (Byte.to_N b0)) as [|[|[|[|[|?]]]]]; try done.
  - destruct s1 as [|b1 s2]; [done|]. by destruct (is_continuation b1).
  - destruct s1 as [|b1 [|b2 s3]]; try done.
    by match goal with |- context [if ?c then _ else _] => destruct c end.
  - destruct s1 as [|b1 [|b2 [|b3 s4]]]; try done.
    by match goal with |- context [if ?c then _ else _] => destruct c end.
Qed.

Lemma byte_lt_256 (b : byte) : (Byte.to_N b < 256)%N.
Proof. by destruct b. Qed.

Lemma low6_le (b : byte) : (low6 b <= 63)%N.
Proof. destruct b; vm_compute; discriminate. Qed.

Lemma low5_le (b : byte) : (N.land (Byte.to_N b) 0x1F <= 31)%N.
Proof. destruct b; vm_compute; discriminate. Qed.

Lemma low4_le (b : byte) : (N.land (Byte.to_N b) 0x0F <= 15)%N.
Proof. destruct b; vm_compute; discriminate. Qed.

Lemma low3_le (b : byte) :
  utf8_code_length (Byte.to_N b) = 4%nat ->
  (N.land (Byte.to_N b) 0x07 <= 4)%N
  /\ ((Byte.to_N b =? 0xF4)%N = false -> (N.land (Byte.to_N b) 0x07 <= 3)%N).
Proof.
  destruct b; intros H; try (vm_compute in H; discriminate H);
    vm_compute; split; intros; discriminate.
Qed.

Lemma low6_after_F4 (b : byte) :
  is_continuation b = true -> (0x8F <? Byte.to_N b)%N = false -> (low6 b <= 15)%N.
Proof.
  destruct b; intros H1 H2;
    try (vm_compute in H1; discriminate H1);
    try (vm_compute in H2; discriminate H2);
    vm_compute; discriminate.
Qed.

Lemma utf8_next_range (s rest : bytes) (c : N) :
  utf8_next s = Some (c, rest) -> (c <= 0x10FFFF)%N.
Proof.
  unfold utf8_next. destruct s as [|b0 s1]; [done|].
  destruct (utf8_code_length (Byte.to_N b0)) as [|[|[|[|[|?]]]]] eqn:Hlen; try done.
  - intros [= <- <-]. pose proof (byte_lt_256 b0). lia.
  - destruct s1 as [|b1 s2]; [done|].
    destruct (is_continuation b1); [|done]. intros [= <- <-].
    pose proof (low5_le b0). pose proof (low6_le b1).
    rewrite N.shiftl_mul_pow2. change (2 ^ 6)%N with 64%N. lia.
  - destruct s1 as [|b1 [|b2 s3]]; try done.
    match goal with |- context [if ?c then _ else _] => destruct c end; [|done].
    intros [= <- <-].
    pose proof (low4_le b0). pose proof (low6_le b1). pose proof (low6_le b2).
    rewrite !N.shiftl_mul_pow2.
    change (2 ^ 12)%N with 4096%N. change (2 ^ 6)%N with 64%N. lia.
  - destruct s1 as [|b1 [|b2 [|b3 s4]]]; try done.
    destruct (is_continuation b1) eqn:Hb1; [|done].
    destruct (is_continuation b2); [|done].
    destruct (is_continuation b3); [|done]. simpl.
    destruct (negb _); [|done]. simpl.
    destruct (low3_le b0 Hlen) as [H4 H3].
    pose proof (low6_le b1). pose proof (low6_le b2). pose proof (low6_le b3).
    destruct (Byte.to_N b0 =? 0xF4)%N eqn:HF4; simpl.
    + destruct (0x8F <? Byte.to_N b1)%N eqn:Hb; [done|]. simpl.
      intros [= <- <-]. pose proof (low6_after_F4 b1 Hb1 Hb).
      rewrite !N.shiftl_mul_pow2.
      change (2 ^ 18)%N with 262144%N. change (2 ^ 12)%N with 4096%N.
      change (2 ^ 6)%N with 64%N. lia.
    + intros [= <- <-]. specialize (H3 eq_refl).
      rewrite !N.shiftl_mul_pow2.
      change (2 ^ 18)%N with 262144%N. change (2 ^ 12)%N with 4096%N.
      change (2 ^ 6)%N with 64%N. lia.
Qed.

Lemma utf8_next_length (s rest : bytes) (c : N) :
  utf8_next s = Some (c, rest) -> (length rest < length s)%nat.
Proof.
  unfold utf8_next. destruct s as [|b0 s1]; [done|].
  destruct (utf8_code_length (Byte.to_N b0)) as [|[|[|[|[|?]]]]]; try done.
  - intros [= _ <-]. simpl. lia.
  - destruct s1 as [|b1 s2]; [done|].
    destruct (is_continuation b1); [|done]. intros [= _ <-]. simpl. lia.
  - destruct s1 as [|b1 [|b2 s3]]; try done.
    match goal with |- context [if ?c then _ else _] => destruct c end; [|done].
    intros [= _ <-]. simpl. lia.
  - destruct s1 as [|b1 [|b2 [|b3 s4]]]; try done.
    match goal with |- context [if ?c then _ else _] => destruct c end; [|done].
    intros [= _ <-]. simpl. lia.
Qed.

Lemma utf8_next_app (s rest t : bytes) (c : N) :
  utf8_next s = Some (c, rest) -> utf8_next (s ++ t) = Some (c, rest ++ t).
Proof.
  unfold utf8_next. destruct s as [|b0 s1]; [done|]. simpl.
  destruct (utf8_code_length (Byte.to_N b0)) as [|[|[|[|[|?]]]]]; try done.
  - by intros [= <- <-].
  - destruct s1 as [|b1 s2]; [done|]. simpl.
    destruct (is_continuation b1); [|done]. by intros [= <- <-].
  - destruct s1 as [|b1 [|b2 s3]]; try done. simpl.
    match goal with |- context [if ?c then _ else _] => destruct c end; [|done].
    by intros [= <- <-].
  - destruct s1 as [|b1 [|b2 [|b3 s4]]]; try done. simpl.
    match goal with |- context [if ?c then _ else _] => destruct c end; [|done].
    by intros [= <- <-].
Qed.

Lemma decode_utf8_bounds (s : bytes) (u : unicode_string) :
  decode_utf8 s = Return u ->
  (length u <= length s)%nat /\ Forall (fun c => (c <= 0x10FFFF)%N) u.
Proof.
  remember (length s) as n eqn:Hn. revert s u Hn.
  induction n as [n IH] using lt_wf_ind. intros s u Hn.
  rewrite decode_utf8_unfold. destruct s as [|b0 s1].
  { intros [= <-]. split; [simpl; lia|constructor]. }
  destruct (utf8_next (b0 :: s1)) as [[c rest]|] eqn:Hnext; [|done].
  destruct (decode_utf8 rest) as [u'|e] eqn:Hrest; [|done].
  intros [= <-].
  pose proof (utf8_next_length _ _ _ Hnext) as Hlen.
  destruct (IH (length rest) ltac:(lia) rest u' eq_refl Hrest) as [Hl Hr].
  split; [simpl in *; lia|].
  constructor; [by eapply utf8_next_range|done].
Qed.

Lemma decode_utf8_app (a b : bytes) (ua : unicode_string) :
  decode_utf8 a = Return ua ->
  decode_utf8 (a ++ b) = decode_utf8 b ≫= (fun ub => Return (ua ++ ub)).
Proof.
  remember (length a) as n eqn:Hn. revert a ua Hn.
  induction n as [n IH] using lt_wf_ind. intros a ua Hn.
  rewrite (decode_utf8_unfold a). destruct a as [|b0 s1].
  { intros [= <-]. simpl. by destruct (decode_utf8 b). }
  destruct (utf8_next (b0 :: s1)) as [[c rest]|] eqn:Hnext; [|done].
  destruct (decode_utf8 rest) as [u'|e] eqn:Hrest; [|done].
  intros [= <-].
  pose proof (utf8_next_length _ _ _ Hnext) as Hlen.
  rewrite (decode_utf8_unfold ((b0 :: s1) ++ b)).
  rewrite (utf8_next_app _ _ b _ Hnext). simpl.
  rewrite (IH (length rest) ltac:(lia) rest u' eq_refl Hrest).
  by destruct (decode_utf8 b).
Qed.

Lemma decode_utf8_ascii (arg : bytes) :
  forallb is_ascii_byte arg = true -> decode_utf8 arg = Return (map Byte.to_N arg).
Proof.
  induction arg as [|b arg IH]; [done|]. simpl.
  intros [Hb Harg]%andb_true_iff. unfold is_ascii_byte in Hb.
  unfold utf8_code_length. rewrite Hb. by rewrite (IH Harg).
Qed.

(** X7: on a byte string of the 7-bit range the two decoders agree, and
    the answer has the code point of each byte, in order. *)
Theorem Str2Unicode_ascii (arg : bytes) :
  forallb is_ascii_byte arg = true ->
  unicode arg "utf-8" = unicode arg "latin-1"
  /\ Str2Unicode arg = Return (Unicode (map Byte.to_N arg)).
Proof.
  intros H. pose proof (decode_utf8_ascii arg H) as Hd. split.
  - exact Hd.
  - by apply Str2Unicode_utf8.
Qed.

(** "1045" *)
Lemma Str2Unicode_ascii_witness :
  unicode [x31; x30; x34; x35] "utf-8" = unicode [x31; x30; x34; x35] "latin-1"
  /\ Str2Unicode [x31; x30; x34; x35]
     = Return (Unicode (map Byte.to_N [x31; x30; x34; x35])).
Proof. apply (Str2Unicode_ascii [x31; x30; x34; x35]). reflexivity. Defined.

(** X8: the answer never has more code points than the argument has
    bytes, and it has fewer only when the argument was read as UTF-8;
    after a failed UTF-8 attempt there is one code point for each
    byte. *)
Theorem Str2Unicode_length (arg : bytes) :
  exists u, Str2Unicode arg = Return (Unicode u)
            /\ (length u <= length arg)%nat
            /\ ((length u < length arg)%nat -> unicode arg "utf-8" = Return u)
            /\ (raises (unicode arg "utf-8") -> length u = length arg).
Proof.
  destruct (unicode arg "utf-8") as [u|e] eqn:E.
  - exists u. split; [by apply Str2Unicode_utf8|].
    split; [exact (proj1 (decode_utf8_bounds arg u E))|]. split; [done|].
    intros [e He]. discriminate He.
  - exists (map Byte.to_N arg).
    split; [apply Str2Unicode_latin1; by exists e|].
    rewrite length_map. split; [lia|]. split; [lia|done].
Qed.

(** X9: every code point of the answer is at most U+10FFFF. *)
Theorem Str2Unicode_code_points (arg : bytes) :
  exists u, Str2Unicode arg = Return (Unicode u)
            /\ Forall (fun c => (c <= 0x10FFFF)%N) u.
Proof.
  destruct (unicode arg "utf-8") as [u|e] eqn:E.
  - exists u. split; [by apply Str2Unicode_utf8|].
    exact (proj2 (decode_utf8_bounds arg u E)).
  - exists (map Byte.to_N arg).
    split; [apply Str2Unicode_latin1; by exists e|].
    apply Forall_forall. intros c [b [-> _]]%list_elem_of_fmap.
    pose proof (byte_lt_256 b). lia.
Qed.

(** X10: the function is not one-to-one. A byte outside the 7-bit range,
    alone, is read as Latin-1; the two-byte UTF-8 sequence of the same
    code point is a different byte string with the same answer. *)
Theorem Str2Unicode_two_spellings (b : byte) :
  is_ascii_byte b = false ->
  Str2Unicode [b] = Return (Unicode [Byte.to_N b])
  /\ Str2Unicode (utf8_two_bytes b) = Return (Unicode [Byte.to_N b])
  /\ utf8_two_bytes b <> [b].
Proof.
  destruct b; intros H; try (vm_compute in H; discriminate H);
    (split; [reflexivity|split; [reflexivity|discriminate]]).
Qed.

(** The byte e9 and the sequence c3 a9. *)
Lemma Str2Unicode_two_spellings_witness :
  Str2Unicode [xe9] = Return (Unicode [0xE9%N])
  /\ Str2Unicode [xc3; xa9] = Return (Unicode [0xE9%N])
  /\ [xc3; xa9] <> [xe9].
Proof. apply (Str2Unicode_two_spellings xe9). reflexivity. Defined.

(** X11: decoding follows concatenation of well-formed UTF-8: when both
    parts are UTF-8, the answer for the two parts joined is the two
    answers joined. *)
Theorem Str2Unicode_app (a b : bytes) (ua ub : unicode_string) :
  unicode a "utf-8" = Return ua ->
  unicode b "utf-8" = Return ub ->
  Str2Unicode (a ++ b) = Return (Unicode (ua ++ ub)).
Proof.
  intros Ha Hb. apply Str2Unicode_utf8.
  change (decode_utf8 (a ++ b) = Return (ua ++ ub)).
  rewrite (decode_utf8_app a b ua Ha).
  change (decode_utf8 b = Return ub) in Hb. by rewrite Hb.
Qed.

Lemma Str2Unicode_app_witness :
  Str2Unicode ([x63; x61; x66; xc3; xa9] ++ [xe2; x82; xac])
  = Return (Unicode ([0x63; 0x61; 0x66; 0xE9] ++ [0x20AC])%N).
Proof.
  apply (Str2Unicode_app [x63; x61; x66; xc3; xa9] [xe2; x82; xac]); reflexivity.
Defined.

(** ** The error-code extractor, further *)

Lemma list_ascii_of_string_app (s t : string) :
  list_ascii_of_string (s +:+ t) = list_ascii_of_string s ++ list_ascii_of_string t.
Proof. induction s as [|c s IH]; simpl; [done|]. by rewrite IH. Qed.

Lemma extract_error_code_leading (exception : string) (ds : list ascii) :
  leading_code (list_ascii_of_string exception) ds ->
  _extract_error_code exception = Return (Some (decimal ds)).
Proof.
  intros [Hds [Hform | Hform]].
  - apply (extract_error_code_match exception 1 ds); auto.
    by apply match_colon_form.
  - apply (extract_error_code_match exception 2 ds); auto.
    by apply match_paren_form.
Qed.

Lemma extract_error_code_some_inv (exception : string) (n : Z) :
  _extract_error_code exception = Return (Some n) ->
  exists ds, leading_code (list_ascii_of_string exception) ds /\ n = decimal ds.
Proof.
  intros H.
  destruct (match_ error_code_pattern (list_ascii_of_string exception))
    as [m|] eqn:E.
  - destruct (match_inv _ _ E) as (ds & Hds & Hform).
    assert (leading_code (list_ascii_of_string exception) ds) as Hlead.
    { split; [done|]. destruct Hform as [[Hf _] | [Hf _]]; auto. }
    exists ds. split; [done|].
    rewrite (extract_error_code_leading _ _ Hlead) in H. congruence.
  - unfold _extract_error_code in H. rewrite E in H. discriminate H.
Qed.

Lemma leading_code_app (s t ds : list ascii) :
  leading_code s ds -> leading_code (s ++ t) ds.
Proof.
  intros [Hds Hform]. split; [done|].
  destruct Hform as [[rest [-> | ->]] | [rest [-> | ->]]]; [left|left|right|right];
    exists (rest ++ t); [left|right|left|right];
    simpl; rewrite <- ?app_assoc; reflexivity.
Qed.

Lemma leading_code_first (s ds : list ascii) :
  leading_code s ds ->
  exists c s', s = c :: s' /\ (is_digit c = true \/ c = "("%char).
Proof.
  intros [[Hne Hds] Hform]. destruct ds as [|d ds]; [done|].
  simpl in Hds. apply andb_true_iff in Hds as [Hd _].
  destruct Hform as [[rest [-> | ->]] | [rest [-> | ->]]]; simpl; eauto.
Qed.

Lemma leading_code_delimiter (s ds : list ascii) :
  leading_code s ds -> ":"%char ∈ s \/ ","%char ∈ s.
Proof.
  intros [_ [[rest [-> | ->]] | [rest [-> | ->]]]]; [left|left|right|right];
    rewrite ?elem_of_cons, elem_of_app, !elem_of_cons; tauto.
Qed.

Lemma extract_error_code_none (exception : string) :
  (forall ds, ~ leading_code (list_ascii_of_string exception) ds) ->
  _extract_error_code exception = Return None.
Proof.
  intros Hnone. unfold _extract_error_code.
  destruct (match_ error_code_pattern (list_ascii_of_string exception))
    as [m|] eqn:E; [|done].
  destruct (match_inv _ _ E) as (ds & Hds & Hform).
  destruct (Hnone ds). split; [done|].
  destruct Hform as [[Hf _] | [Hf _]]; auto.
Qed.

(** X12: a string form that is empty, or whose first character is neither
    a digit nor an opening parenthesis, gives no code: leading blanks, a
    sign or a class name in front of the number are not skipped. *)
Theorem extract_error_code_first_character (exception : string) :
  match exception with
  | EmptyString => True
  | String c _ => is_digit c = false /\ c <> "("%char
  end ->
  _extract_error_code exception = Return None.
Proof.
  intros H. apply extract_error_code_none. intros ds Hlead.
  apply leading_code_first in Hlead as (c & s' & Hs & Hc).
  destruct exception as [|c' rest]; [done|].
  simpl in Hs. injection Hs as <- _. destruct H as [Hd Hp].
  destruct Hc as [Hc | Hc]; congruence.
Qed.

Lemma extract_error_code_first_character_witness :
  _extract_error_code "-1045: Access denied" = Return None
  /\ _extract_error_code " 1045: Access denied" = Return None
  /\ _extract_error_code "OperationalError: (1045, 'Access denied')" = Return None
  /\ _extract_error_code "" = Return None.
Proof.
  split; [|split; [|split]].
  - apply (extract_error_code_first_character "-1045: Access denied").
    split; [reflexivity|discriminate].
  - apply (extract_error_code_first_character " 1045: Access denied").
    split; [reflexivity|discriminate].
  - apply (extract_error_code_first_character
             "OperationalError: (1045, 'Access denied')").
    split; [reflexivity|discriminate].
  - apply (extract_error_code_first_character ""). exact I.
Defined.

(** X13: the code is decided by the beginning of the string form: once a
    string gives a code, every extension of it gives the same code. *)
Theorem extract_error_code_extension (exception more : string) (n : Z) :
  _extract_error_code exception = Return (Some n) ->
  _extract_error_code (exception +:+ more) = Return (Some n).
Proof.
  intros H. apply extract_error_code_some_inv in H as (ds & Hlead & ->).
  apply extract_error_code_leading. rewrite list_ascii_of_string_app.
  by apply leading_code_app.
Qed.

Lemma extract_error_code_extension_witness :
  _extract_error_code ("2006:" +:+ " MySQL server has gone away")
  = Return (Some 2006%Z).
Proof.
  apply (extract_error_code_extension "2006:" " MySQL server has gone away").
  reflexivity.
Defined.

(** X14: in every match of the pattern exactly one of the two groups took
    part, and its text is a non-empty run of digits; so
    [group(1) or group(2)] is that text. *)
Theorem error_code_pattern_groups (subject : list ascii) (m : match_object) :
  match_ error_code_pattern subject = Some m ->
  exists ds, digits ds
    /\ ((group m 1 = Some ds /\ group m 2 = None)
        \/ (group m 1 = None /\ group m 2 = Some ds))
    /\ py_or (group m 1) (group m 2) = Some ds.
Proof.
  intros H. destruct (match_inv _ _ H) as (ds & Hds & [[_ ->] | [_ ->]]);
    exists ds; (split; [done|]); (split; [|apply code_of_match; auto]).
  - left. unfold group. by rewrite lookup_singleton_eq, lookup_singleton_ne.
  - right. unfold group. by rewrite lookup_singleton_eq, lookup_singleton_ne.
Qed.

Lemma error_code_pattern_groups_witness :
  exists ds, digits ds
    /\ ((group {[ 2%nat := list_ascii_of_string "1062" ]} 1 = Some ds
         /\ group {[ 2%nat := list_ascii_of_string "1062" ]} 2 = None)
        \/ (group {[ 2%nat := list_ascii_of_string "1062" ]} 1 = None
            /\ group {[ 2%nat := list_ascii_of_string "1062" ]} 2 = Some ds))
    /\ py_or (group {[ 2%nat := list_ascii_of_string "1062" ]} 1)
             (group {[ 2%nat := list_ascii_of_string "1062" ]} 2) = Some ds.
Proof.
  apply (error_code_pattern_groups
           (list_ascii_of_string "(1062, 'Duplicate entry')")).
  vm_compute. reflexivity.
Defined.

Lemma digit_value_range (c : ascii) :
  is_digit c = true -> (0 <= digit_value c <= 9)%Z.
Proof.
  unfold is_digit, digit_value. intros [H1 H2]%andb_true_iff.
  apply N.leb_le in H1, H2. lia.
Qed.

Lemma decimal_step_nonneg (ds : list ascii) (acc : Z) :
  forallb is_digit ds = true -> (0 <= acc)%Z ->
  (0 <= fold_left (fun acc c => 10 * acc + digit_value c) ds acc)%Z.
Proof.
  revert acc. induction ds as [|d ds IH]; intros acc Hds Hacc; simpl; [done|].
  simpl in Hds. apply andb_true_iff in Hds as [Hd Hds].
  apply IH; [done|]. pose proof (digit_value_range d Hd). lia.
Qed.

(** X15: a code that is returned is never negative. *)
Theorem extract_error_code_nonneg (exception : string) (n : Z) :
  _extract_error_code exception = Return (Some n) -> (0 <= n)%Z.
Proof.
  intros H. apply extract_error_code_some_inv in H as (ds & [[_ Hds] _] & ->).
  by apply decimal_step_nonneg.
Qed.

Lemma extract_error_code_nonneg_witness :
  _extract_error_code "0: no error" = Return (Some 0%Z) /\ (0 <= 0)%Z.
Proof.
  split; [reflexivity|].
  apply (extract_error_code_nonneg "0: no error" 0). reflexivity.
Defined.

Lemma string_of_uint_digits (d : Decimal.uint) :
  forallb is_digit
    (list_ascii_of_string (DecimalString.NilEmpty.string_of_uint d)) = true.
Proof. induction d; simpl; done. Qed.

Lemma decimal_of_uint_acc (d : Decimal.uint) (acc : positive) :
  fold_left (fun acc c => 10 * acc + digit_value c)%Z
    (list_ascii_of_string (DecimalString.NilEmpty.string_of_uint d)) (Z.pos acc)
  = Z.pos (Pos.of_uint_acc d acc).
Proof.
  revert acc. induction d as [|d IH|d IH|d IH|d IH|d IH|d IH|d IH|d IH|d IH|d IH];
    intros acc; simpl; [done|..]; rewrite <- IH; f_equal;
    vm_compute (digit_value _); lia.
Qed.

Lemma decimal_of_uint (d : Decimal.uint) :
  decimal (list_ascii_of_string (DecimalString.NilEmpty.string_of_uint d))
  = Z.of_N (Pos.of_uint d).
Proof.
  unfold decimal.
  induction d as [|d IH|d IH|d IH|d IH|d IH|d IH|d IH|d IH|d IH|d IH];
    simpl; [done|exact IH|..]; apply (decimal_of_uint_acc d).
Qed.

Lemma str_of_N_digits (n : N) : digits (list_ascii_of_string (str_of_N n)).
Proof.
  unfold str_of_N. split; [|apply string_of_uint_digits].
  destruct n as [|p]; [done|]. simpl.
  pose proof (DecimalPos.Unsigned.to_uint_nonnil p) as Hnil.
  by destruct (Pos.to_uint p).
Qed.

Lemma decimal_str_of_N (n : N) :
  decimal (list_ascii_of_string (str_of_N n)) = Z.of_N n.
Proof.
  unfold str_of_N. rewrite decimal_of_uint.
  f_equal. apply DecimalN.Unsigned.of_to.
Qed.

(** X16: the code survives the round trip through the text of an
    exception: for every non-negative integer and every message, the
    forms "<n>: message", "<n>L: message", "(<n>, message" and
    "(<n>L, message" all give back the integer. *)
Theorem extract_error_code_round_trip (n : N) (message : string) :
  _extract_error_code (str_of_N n +:+ ": " +:+ message) = Return (Some (Z.of_N n))
  /\ _extract_error_code (str_of_N n +:+ "L: " +:+ message) = Return (Some (Z.of_N n))
  /\ _extract_error_code ("(" +:+ str_of_N n +:+ ", " +:+ message)
     = Return (Some (Z.of_N n))
  /\ _extract_error_code ("(" +:+ str_of_N n +:+ "L, " +:+ message)
     = Return (Some (Z.of_N n)).
Proof.
  pose proof (str_of_N_digits n) as Hds.
  rewrite <- (decimal_str_of_N n).
  split; [|split; [|split]]; apply extract_error_code_leading;
    (split; [done|]); [left|left|right|right];
    exists (" "%char :: list_ascii_of_string message);
    [left|right|left|right];
    simpl; rewrite ?list_ascii_of_string_app; reflexivity.
Qed.

Example extract_error_code_round_trip_run :
  str_of_N 1045 = "1045"
  /\ _extract_error_code (str_of_N 1045 +:+ ": " +:+ "Access denied")
     = Return (Some 1045%Z).
Proof. split; reflexivity. Qed.

(** X17: a string form with neither a colon nor a comma gives no code,
    even when it is nothing but a number. *)
Theorem extract_error_code_needs_delimiter (exception : string) :
  ":"%char ∉ list_ascii_of_string exception ->
  ","%char ∉ list_ascii_of_string exception ->
  _extract_error_code exception = Return None.
Proof.
  intros Hcolon Hcomma. apply extract_error_code_none. intros ds Hlead.
  apply leading_code_delimiter in Hlead as [H | H]; auto.
Qed.

Lemma extract_error_code_needs_delimiter_witness :
  _extract_error_code "1045" = Return None.
Proof.
  apply (extract_error_code_needs_delimiter "1045");
    apply (bool_decide_unpack _); vm_compute; exact I.
Defined.
